(** * ocr-project: the data interfaces and the entry point

    The repository consists of two TypeScript units:
    - [src/types/index.ts]: the interfaces [Image] and [TextResult];
    - the entry point: [main], an async function that builds an [OCR]
      client, awaits [ocr.extractText] on one path and logs the result, and
      the top-level statement [main().catch(...)].

    The class [OCR] is imported from [./ocr/ocr]; the entry point is verified
    against an arbitrary implementation of that class, whose constructor may
    return or throw and whose promise may be fulfilled, be rejected or stay
    pending. *)

From Stdlib Require Import String Ascii List ZArith Bool Lia SpecFloat.
From Stdlib Require Import DecimalString.
Import ListNotations.
Local Open Scope string_scope.

(** ** The data interfaces *)

Module Types.

(** A JavaScript [number] is an IEEE-754 binary64 value: a signed zero, a
    signed infinity, NaN, or [(-1)^s * m * 2^e]. *)
Definition number : Type := spec_float.

(** [export interface Image { url: string; width: number; height: number }] *)
Record Image : Type := mkImage
  { url : string;
    width : number;
    height : number }.

(** [export interface TextResult { text: string; confidence: number }] *)
Record TextResult : Type := mkTextResult
  { text : string;
    confidence : number }.

(** The binary64 value 1, in canonical form (53-bit mantissa). *)
Definition num_one : number := S754_finite false 4503599627370496 (-52).

End Types.
Import Types.

(** ** The JavaScript runtime, as far as the entry point uses it *)

(** Completion of a piece of code: it returns a value, throws, or does not
    finish. Inside an async function a [Throw] is the rejection of the
    function's promise, and [Unfinished] is a function left waiting at an
    [await] whose promise never settles (for a plain call: one that does not
    return); its own promise then stays pending. *)
Inductive completion (E A : Type) : Type :=
| Normal (a : A)
| Throw (e : E)
| Unfinished.
Arguments Normal {E A} a.
Arguments Throw {E A} e.
Arguments Unfinished {E A}.

(** What becomes of a promise: it is fulfilled, it is rejected, or it stays
    pending for ever. *)
Inductive promise (E A : Type) : Type :=
| Fulfilled (a : A)
| Rejected (e : E)
| Pending.
Arguments Fulfilled {E A} a.
Arguments Rejected {E A} e.
Arguments Pending {E A}.

(** Values handed to [console.log] and [console.error] by this program. *)
Inductive arg (E : Type) : Type :=
| AStr (s : string)
| AResult (r : TextResult)
| AErr (e : E).
Arguments AStr {E} s.
Arguments AResult {E} r.
Arguments AErr {E} e.

(** What a run does that is visible from outside. *)
Inductive event (E : Type) : Type :=
| EvNew                              (* new OCR() *)
| EvExtract (path : string)          (* ocr.extractText(path) *)
| EvStdout (args : list (arg E))     (* console.log(...args) *)
| EvStderr (args : list (arg E)).    (* console.error(...args) *)
Arguments EvNew {E}.
Arguments EvExtract {E} path.
Arguments EvStdout {E} args.
Arguments EvStderr {E} args.

(** The process: its command line, the state of everything outside the
    program (file system, recognition engine), and the events so far. *)
Record Proc (E W : Type) : Type := mkProc
  { argv : list string;
    world : W;
    events : list (event E) }.
Arguments mkProc {E W} argv world events.
Arguments argv {E W} p.
Arguments world {E W} p.
Arguments events {E W} p.

(** How a process ends once the event loop is empty: a handled or absent
    rejection leaves exit code 0; a rejection nobody handles makes Node
    report it and exit with code 1; and when the promise of the top-level
    statement never settles, no handler runs and Node leaves with code 0 as
    soon as nothing is left to wait for. *)
Inductive termination (E : Type) : Type :=
| CleanExit
| UnhandledRejection (e : E)
| Unsettled.
Arguments CleanExit {E}.
Arguments UnhandledRejection {E} e.
Arguments Unsettled {E}.

Definition exit_code {E} (t : termination E) : Z :=
  match t with
  | CleanExit => 0
  | UnhandledRejection _ => 1
  | Unsettled => 0
  end.

(** The interface of the imported class [OCR]: what [new OCR()] and
    [ocr.extractText(path)] do to the outside world and what they give back.
    A throw inside [extractText] before it returns its promise counts as a
    rejection, which is what the surrounding async function makes of it. *)
Class OCRClass (E W O : Type) : Type :=
  { OCR_new : W -> completion E O * W;
    OCR_extractText : O -> string -> W -> promise E TextResult * W }.

(** Code with effects on the process that may throw; effects made before a
    throw stay. *)
Definition M (E W A : Type) : Type := Proc E W -> completion E A * Proc E W.

Definition ret {E W A} (a : A) : M E W A := fun p => (Normal a, p).

Definition bind {E W A B} (c : M E W A) (k : A -> M E W B) : M E W B :=
  fun p =>
    match c p with
    | (Normal a, p') => k a p'
    | (Throw e, p') => (Throw e, p')
    | (Unfinished, p') => (Unfinished, p')
    end.

Notation "x <- c ;; k" := (bind c (fun x => k))
  (at level 61, c at next level, right associativity).

(** [promise.catch(handler)] *)
Definition promise_catch {E W A} (c : M E W A) (handler : E -> M E W A)
  : M E W A :=
  fun p =>
    match c p with
    | (Normal a, p') => (Normal a, p')
    | (Throw e, p') => handler e p'
    | (Unfinished, p') => (Unfinished, p')
    end.

(** Appending to the trace; the console methods built on it return
    [undefined] and do not throw. *)
Definition emit {E W} (ev : event E) : M E W unit :=
  fun p => (Normal tt, mkProc (argv p) (world p) (events p ++ [ev])).

Definition console_log {E W} (args : list (arg E)) : M E W unit :=
  emit (EvStdout args).

Definition console_error {E W} (args : list (arg E)) : M E W unit :=
  emit (EvStderr args).

(** [await e]: evaluate [e] to a promise, then resume with its value or throw
    its rejection reason; there is no resuming from a promise that stays
    pending. *)
Definition await {E W A} (c : M E W (promise E A)) : M E W A :=
  pr <- c ;;
  match pr with
  | Fulfilled a => ret a
  | Rejected e => fun p => (Throw e, p)
  | Pending => fun p => (Unfinished, p)
  end.

(** ** The entry point *)

Section EntryPoint.

Context {E W O : Type} {ocrClass : OCRClass E W O}.

Definition new_OCR : M E W O :=
  fun p =>
    let (c, w') := OCR_new (world p) in
    (c, mkProc (argv p) w' (events p ++ [EvNew])).

Definition extractText (ocr : O) (path : string)
  : M E W (promise E TextResult) :=
  fun p =>
    let (pr, w') := OCR_extractText ocr path (world p) in
    (Normal pr, mkProc (argv p) w' (events p ++ [EvExtract path])).

(** [const main = async () => { ... }] *)
Definition main : M E W unit :=
  ocr <- new_OCR ;;
  let imagePath := "path/to/image.png" in
  textResult <- await (extractText ocr imagePath) ;;
  console_log [AStr "抽出されたテキスト:"; AResult textResult].

(** [main().catch(error => { console.error(..., error); })] *)
Definition toplevel : M E W unit :=
  promise_catch main
    (fun error => console_error [AStr "エラーが発生しました:"; AErr error]).

Definition start (args : list string) (w : W) : Proc E W :=
  mkProc args w [].

(** One run of the program, from process start to exit. *)
Definition run (args : list string) (w : W) : termination E * Proc E W :=
  match toplevel (start args w) with
  | (Normal _, p) => (CleanExit, p)
  | (Throw e, p) => (UnhandledRejection e, p)
  | (Unfinished, p) => (Unsettled, p)
  end.

(** The ways a run can go. *)
Inductive run_shape (args : list string) (w : W)
  : termination E * Proc E W -> Prop :=
| shape_ctor_throw e w1 :
    OCR_new w = (Throw e, w1) ->
    run_shape args w
      (CleanExit,
       mkProc args w1
         [EvNew; EvStderr [AStr "エラーが発生しました:"; AErr e]])
| shape_rejected o w1 e w2 :
    OCR_new w = (Normal o, w1) ->
    OCR_extractText o "path/to/image.png" w1 = (Rejected e, w2) ->
    run_shape args w
      (CleanExit,
       mkProc args w2
         [EvNew; EvExtract "path/to/image.png";
          EvStderr [AStr "エラーが発生しました:"; AErr e]])
| shape_fulfilled o w1 r w2 :
    OCR_new w = (Normal o, w1) ->
    OCR_extractText o "path/to/image.png" w1 = (Fulfilled r, w2) ->
    run_shape args w
      (CleanExit,
       mkProc args w2
         [EvNew; EvExtract "path/to/image.png";
          EvStdout [AStr "抽出されたテキスト:"; AResult r]])
| shape_pending o w1 w2 :
    OCR_new w = (Normal o, w1) ->
    OCR_extractText o "path/to/image.png" w1 = (Pending, w2) ->
    run_shape args w
      (Unsettled, mkProc args w2 [EvNew; EvExtract "path/to/image.png"])
| shape_ctor_unfinished w1 :
    OCR_new w = (Unfinished, w1) ->
    run_shape args w (Unsettled, mkProc args w1 [EvNew]).

End EntryPoint.

(** ** Reading a trace *)

Definition stdout_of {E} (t : list (event E)) : list (list (arg E)) :=
  flat_map (fun ev => match ev with EvStdout a => [a] | _ => [] end) t.

Definition stderr_of {E} (t : list (event E)) : list (list (arg E)) :=
  flat_map (fun ev => match ev with EvStderr a => [a] | _ => [] end) t.

Definition extract_calls {E} (t : list (event E)) : list string :=
  flat_map (fun ev => match ev with EvExtract p => [p] | _ => [] end) t.

(** ** The flow of a run, as the documentation describes it *)

Inductive phase : Type := Running | Succeeded | Failed.

(** The documented state machine: [Running] goes to [Succeeded] or to
    [Failed], and nothing else moves. *)
Inductive flow : phase -> phase -> Prop :=
| flow_succeed : flow Running Succeeded
| flow_fail : flow Running Failed.

(** The phase an event of the program moves a run into: a result printed on
    standard output is success, a report on the error stream is failure. *)
Definition phase_of_event {E} (ev : event E) : option phase :=
  match ev with
  | EvStdout _ => Some Succeeded
  | EvStderr _ => Some Failed
  | _ => None
  end.

(** The phases a trace goes through, starting from [Running]. *)
Definition phase_path {E} (t : list (event E)) : list phase :=
  Running ::
  flat_map (fun ev => match phase_of_event ev with
                      | Some ph => [ph]
                      | None => []
                      end) t.

(** A sequence of phases in which every move is one of the documented
    flow. *)
Fixpoint follows_flow (ps : list phase) : Prop :=
  match ps with
  | a :: rest =>
      match rest with
      | b :: _ => flow a b /\ follows_flow rest
      | [] => True
      end
  | [] => True
  end.

(** ** What [console.log] writes

    Node's console formats the arguments of a call with [util.format] and
    writes the line to the stream: a string argument goes out as it is, any
    other value as [util.inspect] shows it, with one space between arguments
    and a line feed at the end. The formatting is given for a standard output
    that is not a terminal (no colour codes) and only as far as each function
    says: [None] stands for "not described here", not for "prints
    nothing". *)

Definition line_feed : string := String "010"%char "".

(** A character of a string-valued property, as [util.inspect] writes it
    between single quotes: line feed, tab, carriage return and backslash are
    escaped, the other printable ASCII characters stand for themselves. Not
    described: the single quote (it makes the formatter pick other quotes),
    the remaining control characters, and anything beyond ASCII. *)
Definition escape_char (c : ascii) : option string :=
  let n := nat_of_ascii c in
  if (n =? 10)%nat then Some "\n"
  else if (n =? 9)%nat then Some "\t"
  else if (n =? 13)%nat then Some "\r"
  else if (n =? 92)%nat then Some "\\"
  else if (n =? 39)%nat then None
  else if ((32 <=? n) && (n <=? 126))%nat then Some (String c "")
  else None.

Fixpoint escape_string (s : string) : option string :=
  match s with
  | EmptyString => Some ""
  | String c rest =>
      match escape_char c, escape_string rest with
      | Some a, Some b => Some (a ++ b)
      | _, _ => None
      end
  end.

Definition inspect_string (s : string) : option string :=
  option_map (fun body => "'" ++ body ++ "'") (escape_string s).

Definition digits (n : N) : string := NilZero.string_of_uint (N.to_uint n).

(** A number as [util.inspect] writes it: the two zeros, the infinities and
    NaN by name, and a whole number of magnitude up to 2^53 by its decimal
    digits. Not described: fractions and larger magnitudes, which need the
    shortest-digits conversion. *)
Definition inspect_number (x : number) : option string :=
  match x with
  | S754_zero false => Some "0"
  | S754_zero true => Some "-0"
  | S754_infinity false => Some "Infinity"
  | S754_infinity true => Some "-Infinity"
  | S754_nan => Some "NaN"
  | S754_finite s m e =>
      let whole :=
        if (0 <=? e)%Z then Some (Z.pos m * 2 ^ e)%Z
        else if (Z.pos m mod 2 ^ (- e) =? 0)%Z
             then Some (Z.pos m / 2 ^ (- e))%Z
             else None in
      match whole with
      | Some n =>
          if (n <=? 2 ^ 53)%Z
          then Some ((if s then "-" else "") ++ digits (Z.to_N n))
          else None
      | None => None
      end
  end.

(** A [TextResult] as [util.inspect] writes it when it is short enough to
    stay on one line. The bound used here (40 characters for the two values
    together) is well inside the formatter's line width of 80; longer
    records, which it may break over several lines, are not described. *)
Definition inspect_result (r : TextResult) : option string :=
  match inspect_string (text r), inspect_number (confidence r) with
  | Some t, Some c =>
      if (String.length t + String.length c <=? 40)%nat
      then Some ("{ text: " ++ t ++ ", confidence: " ++ c ++ " }")
      else None
  | _, _ => None
  end.

(** One argument of a console call. How an error value is shown depends on
    the value and is not described. *)
Definition show_arg {E} (a : arg E) : option string :=
  match a with
  | AStr s => Some s
  | AResult r => inspect_result r
  | AErr _ => None
  end.

Fixpoint join_shown {E} (args : list (arg E)) : option string :=
  match args with
  | [] => Some ""
  | a :: rest =>
      match rest with
      | [] => show_arg a
      | _ :: _ =>
          match show_arg a, join_shown rest with
          | Some x, Some y => Some (x ++ " " ++ y)
          | _, _ => None
          end
      end
  end.

Fixpoint has_percent (s : string) : bool :=
  match s with
  | EmptyString => false
  | String c rest => (nat_of_ascii c =? 37)%nat || has_percent rest
  end.

(** The line a console call writes. Not described: a first argument that is
    a string with a percent sign, which [util.format] reads as a format. *)
Definition console_line {E} (args : list (arg E)) : option string :=
  match args with
  | AStr s :: _ =>
      if has_percent s then None
      else option_map (fun l => l ++ line_feed) (join_shown args)
  | _ => option_map (fun l => l ++ line_feed) (join_shown args)
  end.

Fixpoint concat_lines {E} (calls : list (list (arg E))) : option string :=
  match calls with
  | [] => Some ""
  | c :: rest =>
      match console_line c, concat_lines rest with
      | Some a, Some b => Some (a ++ b)
      | _, _ => None
      end
  end.

(** Everything a trace writes on standard output. *)
Definition stdout_text {E} (t : list (event E)) : option string :=
  concat_lines (stdout_of t).

(** [needle] occurs somewhere in [hay]. *)
Fixpoint occurs_in (needle hay : string) : bool :=
  String.prefix needle hay
  || match hay with
     | EmptyString => false
     | String _ rest => occurs_in needle rest
     end.

(** ** Concrete clients to run the entry point with *)

Module Fake.

(** The outside world: whether the constructor throws (and what), and the
    readable image files with what the engine recognises in each. *)
Record world : Type := mkWorld
  { ctor_error : option string;
    files : list (string * TextResult) }.

Fixpoint lookup (path : string) (fs : list (string * TextResult))
  : option TextResult :=
  match fs with
  | [] => None
  | (name, r) :: rest =>
      if String.eqb name path then Some r else lookup path rest
  end.

#[global] Instance fakeOCR : OCRClass string world unit :=
  { OCR_new w :=
      match ctor_error w with
      | Some msg => (Throw msg, w)
      | None => (Normal tt, w)
      end;
    OCR_extractText _ path w :=
      match lookup path (files w) with
      | Some r => (Fulfilled r, w)
      | None => (Rejected ("ENOENT: " ++ path), w)
      end }.

Definition hello : TextResult := mkTextResult "HELLO" num_one.

(** The hard-coded path is readable. *)
Definition world_ok : world :=
  mkWorld None [("path/to/image.png", hello)].

(** No file is readable. *)
Definition world_empty : world := mkWorld None [].

(** The constructor throws. *)
Definition world_broken : world :=
  mkWorld (Some "engine not installed") [("path/to/image.png", hello)].

(** An image with two lines of text. *)
Definition two_lines : TextResult :=
  mkTextResult ("LINE 1" ++ line_feed ++ "LINE 2") num_one.

Definition world_two_lines : world :=
  mkWorld None [("path/to/image.png", two_lines)].

End Fake.

Module Stalled.

(** A client whose engine never answers: the promise that [extractText]
    returns stays pending. *)
Inductive world : Type := Waiting.

#[global] Instance stalledOCR : OCRClass string world unit :=
  { OCR_new w := (Normal tt, w);
    OCR_extractText _ _ w := (Pending, w) }.

End Stalled.

(** ** Properties *)

Section EntryPointFacts.

Context {E W O : Type} {ocrClass : OCRClass E W O}.

Lemma main_ctor_throw args w e w1 :
  OCR_new w = (Throw e, w1) ->
  main (start args w) = (Throw e, mkProc args w1 [EvNew]).
Proof.
  intros Hnew. unfold main, bind, new_OCR, start; simpl.
  rewrite Hnew. reflexivity.
Qed.

Lemma main_ctor_unfinished args w w1 :
  OCR_new w = (Unfinished, w1) ->
  main (start args w) = (Unfinished, mkProc args w1 [EvNew]).
Proof.
  intros Hnew. unfold main, bind, new_OCR, start; simpl.
  rewrite Hnew. reflexivity.
Qed.

Lemma main_rejected args w o w1 e w2 :
  OCR_new w = (Normal o, w1) ->
  OCR_extractText o "path/to/image.png" w1 = (Rejected e, w2) ->
  main (start args w)
  = (Throw e, mkProc args w2 [EvNew; EvExtract "path/to/image.png"]).
Proof.
  intros Hnew Hext.
  unfold main, await, bind, new_OCR, extractText, start; simpl.
  rewrite Hnew; simpl. rewrite Hext; simpl. reflexivity.
Qed.

Lemma main_pending args w o w1 w2 :
  OCR_new w = (Normal o, w1) ->
  OCR_extractText o "path/to/image.png" w1 = (Pending, w2) ->
  main (start args w)
  = (Unfinished, mkProc args w2 [EvNew; EvExtract "path/to/image.png"]).
Proof.
  intros Hnew Hext.
  unfold main, await, bind, new_OCR, extractText, start; simpl.
  rewrite Hnew; simpl. rewrite Hext; simpl. reflexivity.
Qed.

Lemma main_fulfilled args w o w1 r w2 :
  OCR_new w = (Normal o, w1) ->
  OCR_extractText o "path/to/image.png" w1 = (Fulfilled r, w2) ->
  main (start args w)
  = (Normal tt,
     mkProc args w2
       [EvNew; EvExtract "path/to/image.png";
        EvStdout [AStr "抽出されたテキスト:"; AResult r]]).
Proof.
  intros Hnew Hext.
  unfold main, await, bind, new_OCR, extractText, console_log, emit, ret,
    start; simpl.
  rewrite Hnew; simpl. rewrite Hext; simpl. reflexivity.
Qed.

(** What the handler makes of a rejection of [main()]. *)
Lemma run_of_main_throw args w e p :
  main (start args w) = (Throw e, p) ->
  run args w
  = (CleanExit,
     mkProc (argv p) (world p)
       (events p ++ [EvStderr [AStr "エラーが発生しました:"; AErr e]])).
Proof.
  intros Hmain. unfold run, toplevel, promise_catch.
  rewrite Hmain. reflexivity.
Qed.

Lemma run_of_main_normal args w p :
  main (start args w) = (Normal tt, p) ->
  run args w = (CleanExit, p).
Proof.
  intros Hmain. unfold run, toplevel, promise_catch.
  rewrite Hmain. reflexivity.
Qed.

Lemma run_of_main_unfinished args w p :
  main (start args w) = (Unfinished, p) ->
  run args w = (Unsettled, p).
Proof.
  intros Hmain. unfold run, toplevel, promise_catch.
  rewrite Hmain. reflexivity.
Qed.

Lemma run_cases args w : run_shape args w (run args w).
Proof.
  destruct (OCR_new w) as [[o | e |] w1] eqn:Hnew.
  - destruct (OCR_extractText o "path/to/image.png" w1) as [[r | e |] w2]
      eqn:Hext.
    + rewrite (run_of_main_normal args w _ (main_fulfilled _ _ _ _ _ _ Hnew Hext)).
      eapply shape_fulfilled; eassumption.
    + rewrite (run_of_main_throw args w _ _ (main_rejected _ _ _ _ _ _ Hnew Hext)).
      eapply shape_rejected; eassumption.
    + rewrite (run_of_main_unfinished args w _ (main_pending _ _ _ _ _ Hnew Hext)).
      eapply shape_pending; eassumption.
  - rewrite (run_of_main_throw args w _ _ (main_ctor_throw _ _ _ _ Hnew)).
    eapply shape_ctor_throw; eassumption.
  - rewrite (run_of_main_unfinished args w _ (main_ctor_unfinished _ _ _ Hnew)).
    eapply shape_ctor_unfinished; eassumption.
Qed.

(** Taking a short list apart at one of its elements. *)
Lemma split_at_1 {A} (x : A) pre ev post :
  [x] = (pre ++ ev :: post)%list -> pre = [] /\ ev = x /\ post = [].
Proof.
  destruct pre as [| a pre]; simpl; intros H; inversion H; subst.
  - auto.
  - destruct pre; discriminate.
Qed.

Lemma split_at_2 {A} (x y : A) pre ev post :
  [x; y] = (pre ++ ev :: post)%list ->
  (pre = [] /\ ev = x /\ post = [y]) \/ (pre = [x] /\ ev = y /\ post = []).
Proof.
  destruct pre as [| a pre]; simpl; intros H; inversion H; subst.
  - left; auto.
  - right. destruct (split_at_1 _ _ _ _ H2) as [? [? ?]]; subst; auto.
Qed.

Lemma split_at_3 {A} (x y z : A) pre ev post :
  [x; y; z] = (pre ++ ev :: post)%list ->
  (pre = [] /\ ev = x /\ post = [y; z])
  \/ (pre = [x] /\ ev = y /\ post = [z])
  \/ (pre = [x; y] /\ ev = z /\ post = []).
Proof.
  destruct pre as [| a pre]; simpl; intros H; inversion H; subst.
  - left; auto.
  - right.
    destruct (split_at_2 _ _ _ _ _ H2) as [[? [? ?]] | [? [? ?]]]; subst; auto.
Qed.

Lemma append_nil_r (s : string) : s ++ "" = s.
Proof. induction s as [| c s IH]; simpl; [| rewrite IH]; reflexivity. Qed.

(** C1. Every error with which the awaited [extractText] call rejects reaches
    the handler installed by [main().catch]: the handler prints the
    diagnostic label and the error with [console.error], nothing is printed
    on standard output, and the process ends cleanly, with no rejection left
    unhandled. *)
Theorem extraction_error_is_caught args w o w1 e w2 :
  OCR_new w = (Normal o, w1) ->
  OCR_extractText o "path/to/image.png" w1 = (Rejected e, w2) ->
  run args w
  = (CleanExit,
     mkProc args w2
       [EvNew; EvExtract "path/to/image.png";
        EvStderr [AStr "エラーが発生しました:"; AErr e]]).
Proof.
  intros Hnew Hext.
  rewrite (run_of_main_throw args w e _
             (main_rejected args w o w1 e w2 Hnew Hext)).
  reflexivity.
Qed.

(** C2, as the code has it. When the extraction call succeeds, the entry
    point makes one [console.log] call whose arguments are the label
    ["抽出されたテキスト:"] and the whole returned [TextResult] (text and
    confidence together); nothing goes to the error stream and the process
    ends cleanly. Standard output thus receives the label, a space, the
    record as the console formats it, and a line feed: not the text field
    itself. *)
Theorem success_prints_label_and_result args w o w1 r w2 :
  OCR_new w = (Normal o, w1) ->
  OCR_extractText o "path/to/image.png" w1 = (Fulfilled r, w2) ->
  run args w
  = (CleanExit,
     mkProc args w2
       [EvNew; EvExtract "path/to/image.png";
        EvStdout [AStr "抽出されたテキスト:"; AResult r]])
  /\ stdout_text (events (snd (run args w)))
     = option_map
         (fun shown => "抽出されたテキスト: " ++ shown ++ line_feed)
         (inspect_result r).
Proof.
  intros Hnew Hext.
  rewrite (run_of_main_normal args w _
             (main_fulfilled args w o w1 r w2 Hnew Hext)).
  split; [reflexivity |].
  unfold stdout_text; simpl.
  destruct (inspect_result r) as [shown |]; simpl; [| reflexivity].
  rewrite append_nil_r. reflexivity.
Qed.

(** C3, as the code has it. When [main()] rejects with [e], the rejection is
    handled by the explicit [.catch] handler: it prints the label and [e] on
    the error stream, and the process then ends on the normal path with exit
    code 0, not through an unhandled rejection. *)
Theorem main_rejection_is_handled args w e p :
  main (start args w) = (Throw e, p) ->
  stderr_of (events (snd (run args w)))
  = (stderr_of (events p) ++ [[AStr "エラーが発生しました:"; AErr e]])%list
  /\ stdout_of (events (snd (run args w))) = stdout_of (events p)
  /\ fst (run args w) = CleanExit
  /\ exit_code (fst (run args w)) = 0%Z.
Proof.
  intros Hmain. rewrite (run_of_main_throw args w e p Hmain). simpl.
  unfold stderr_of, stdout_of. rewrite !flat_map_app. simpl.
  rewrite app_nil_r. repeat split.
Qed.

(** C5. [main] has no parameters and a run does not depend on the command
    line: with any two argument vectors the process ends the same way, leaves
    the outside world in the same state and produces the same events; and
    every path handed to [extractText] is the literal
    ["path/to/image.png"]. *)
Theorem entry_ignores_command_line args args' w :
  fst (run args' w) = fst (run args w)
  /\ world (snd (run args' w)) = world (snd (run args w))
  /\ events (snd (run args' w)) = events (snd (run args w))
  /\ Forall (fun path => path = "path/to/image.png")
       (extract_calls (events (snd (run args w)))).
Proof.
  destruct (run_cases args w) as [e w1 Hnew | o w1 e w2 Hnew Hext
                                 | o w1 r w2 Hnew Hext
                                 | o w1 w2 Hnew Hext | w1 Hnew];
    destruct (run_cases args' w) as [e' w1' Hnew' | o' w1' e' w2' Hnew' Hext'
                                    | o' w1' r' w2' Hnew' Hext'
                                    | o' w1' w2' Hnew' Hext' | w1' Hnew'];
    rewrite Hnew in Hnew'; inversion Hnew'; subst;
    try (rewrite Hext in Hext'; inversion Hext'; subst);
    simpl; repeat split; repeat constructor.
Qed.

(** C7, as the code has it. [extractText] is called at most once in a run:
    not at all when [new OCR()] throws, in which case the run goes from
    [Running] to [Failed], and exactly once, with the hard-coded path, when
    [new OCR()] returns. The run then goes from [Running] to [Succeeded] if
    the promise of that call is fulfilled and from [Running] to [Failed] if
    it is rejected; while the promise stays pending the run stays in
    [Running]. The phases of every run follow the documented flow, the event
    that leaves [Running] is the last event of the run (both outcomes are
    terminal), and no extraction call follows a report of failure (no
    retry). *)
Theorem entry_flow args w :
  let t := events (snd (run args w)) in
  length (extract_calls t) <= 1
  /\ (forall e w1, OCR_new w = (Throw e, w1) ->
        extract_calls t = [] /\ phase_path t = [Running; Failed])
  /\ (forall o w1, OCR_new w = (Normal o, w1) ->
        extract_calls t = ["path/to/image.png"]
        /\ (forall r w2,
               OCR_extractText o "path/to/image.png" w1 = (Fulfilled r, w2) ->
               phase_path t = [Running; Succeeded])
        /\ (forall e w2,
               OCR_extractText o "path/to/image.png" w1 = (Rejected e, w2) ->
               phase_path t = [Running; Failed])
        /\ (forall w2,
               OCR_extractText o "path/to/image.png" w1 = (Pending, w2) ->
               phase_path t = [Running]))
  /\ follows_flow (phase_path t)
  /\ (forall pre ev post final,
        t = (pre ++ ev :: post)%list ->
        phase_of_event ev = Some final ->
        post = [])
  /\ (forall pre a post,
        t = (pre ++ EvStderr a :: post)%list -> extract_calls post = []).
Proof.
  destruct (run_cases args w) as [e w1 Hnew | o w1 e w2 Hnew Hext
                                 | o w1 r w2 Hnew Hext
                                 | o w1 w2 Hnew Hext | w1 Hnew]; simpl.
  - (* the constructor throws *)
    split; [lia |]. split; [intros; split; reflexivity |].
    split; [intros o' w1' Hnew'; rewrite Hnew in Hnew'; discriminate |].
    split; [split; [constructor | exact I] |].
    split.
    + intros pre ev post final Heq Hph.
      destruct (split_at_2 _ _ _ _ _ Heq) as [[_ [? _]] | [_ [_ ?]]]; subst;
        [discriminate Hph | reflexivity].
    + intros pre a post Heq.
      destruct (split_at_2 _ _ _ _ _ Heq) as [[_ [? _]] | [_ [_ ?]]]; subst;
        [discriminate | reflexivity].
  - (* the extraction is rejected *)
    split; [lia |].
    split; [intros e' w1' Hnew'; rewrite Hnew in Hnew'; discriminate |].
    split.
    { intros o' w1' Hnew'. rewrite Hnew in Hnew'. inversion Hnew'; subst.
      split; [reflexivity |]. repeat split.
      - intros r' w2' Hext'. rewrite Hext in Hext'. discriminate.
      - intros w2' Hext'. rewrite Hext in Hext'. discriminate. }
    split; [split; [constructor | exact I] |].
    split.
    + intros pre ev post final Heq Hph.
      destruct (split_at_3 _ _ _ _ _ _ Heq)
        as [[_ [? _]] | [[_ [? _]] | [_ [_ ?]]]]; subst;
        [discriminate Hph | discriminate Hph | reflexivity].
    + intros pre a post Heq.
      destruct (split_at_3 _ _ _ _ _ _ Heq)
        as [[_ [? _]] | [[_ [? _]] | [_ [_ ?]]]]; subst;
        [discriminate | discriminate | reflexivity].
  - (* the extraction is fulfilled *)
    split; [lia |].
    split; [intros e' w1' Hnew'; rewrite Hnew in Hnew'; discriminate |].
    split.
    { intros o' w1' Hnew'. rewrite Hnew in Hnew'. inversion Hnew'; subst.
      split; [reflexivity |]. repeat split.
      - intros e' w2' Hext'. rewrite Hext in Hext'. discriminate.
      - intros w2' Hext'. rewrite Hext in Hext'. discriminate. }
    split; [split; [constructor | exact I] |].
    split.
    + intros pre ev post final Heq Hph.
      destruct (split_at_3 _ _ _ _ _ _ Heq)
        as [[_ [? _]] | [[_ [? _]] | [_ [_ ?]]]]; subst;
        [discriminate Hph | discriminate Hph | reflexivity].
    + intros pre a post Heq.
      destruct (split_at_3 _ _ _ _ _ _ Heq)
        as [[_ [? _]] | [[_ [? _]] | [_ [_ ?]]]]; subst;
        [discriminate | discriminate | reflexivity].
  - (* the promise stays pending *)
    split; [lia |].
    split; [intros e' w1' Hnew'; rewrite Hnew in Hnew'; discriminate |].
    split.
    { intros o' w1' Hnew'. rewrite Hnew in Hnew'. inversion Hnew'; subst.
      split; [reflexivity |]. repeat split.
      - intros r' w2' Hext'. rewrite Hext in Hext'. discriminate.
      - intros e' w2' Hext'. rewrite Hext in Hext'. discriminate. }
    split; [exact I |].
    split.
    + intros pre ev post final Heq Hph.
      destruct (split_at_2 _ _ _ _ _ Heq) as [[_ [? _]] | [_ [? _]]]; subst;
        discriminate Hph.
    + intros pre a post Heq.
      destruct (split_at_2 _ _ _ _ _ Heq) as [[_ [? _]] | [_ [? _]]];
        discriminate.
  - (* the constructor does not return *)
    split; [lia |].
    split; [intros e' w1' Hnew'; rewrite Hnew in Hnew'; discriminate |].
    split; [intros o' w1' Hnew'; rewrite Hnew in Hnew'; discriminate |].
    split; [exact I |].
    split.
    + intros pre ev post final Heq Hph.
      destruct (split_at_1 _ _ _ _ Heq) as [_ [? _]]; subst. discriminate Hph.
    + intros pre a post Heq.
      destruct (split_at_1 _ _ _ _ Heq) as [_ [? _]]; discriminate.
Qed.

(** C10. The handler of [main().catch] covers the whole body of [main]: an
    error thrown by [new OCR()] is caught and printed by the same
    [console.error] call as an extraction error, [extractText] is not
    reached, and the process ends cleanly. *)
Theorem constructor_error_is_caught args w e w1 :
  OCR_new w = (Throw e, w1) ->
  run args w
  = (CleanExit,
     mkProc args w1
       [EvNew; EvStderr [AStr "エラーが発生しました:"; AErr e]]).
Proof.
  intros Hnew.
  rewrite (run_of_main_throw args w e _
             (main_ctor_throw args w e w1 Hnew)).
  reflexivity.
Qed.

End EntryPointFacts.

(** *** Runs with the concrete clients *)

(** No file is readable: the extraction rejects and the handler reports it. *)
Lemma extraction_error_is_caught_witness :
  OCR_new Fake.world_empty = (Normal tt, Fake.world_empty)
  /\ OCR_extractText tt "path/to/image.png" Fake.world_empty
     = (Rejected "ENOENT: path/to/image.png", Fake.world_empty)
  /\ run ["node"; "main.js"] Fake.world_empty
     = (CleanExit,
        mkProc ["node"; "main.js"] Fake.world_empty
          [EvNew; EvExtract "path/to/image.png";
           EvStderr [AStr "エラーが発生しました:";
                     AErr "ENOENT: path/to/image.png"]]).
Proof.
  split; [reflexivity | split; [reflexivity |]].
  apply (extraction_error_is_caught ["node"; "main.js"] Fake.world_empty tt
           Fake.world_empty "ENOENT: path/to/image.png" Fake.world_empty);
    reflexivity.
Defined.

Lemma prefix_of_app (n post : string) : String.prefix n (n ++ post) = true.
Proof.
  induction n as [| c n IH]; simpl.
  - destruct post; reflexivity.
  - destruct (ascii_dec c c) as [_ | Hne]; [exact IH | congruence].
Qed.

Lemma occurs_in_unfold (n h : string) :
  occurs_in n h
  = String.prefix n h
    || match h with
       | EmptyString => false
       | String _ rest => occurs_in n rest
       end.
Proof. destruct h; reflexivity. Qed.

(** [occurs_in] finds every occurrence. *)
Lemma occurs_in_complete (pre n post : string) :
  occurs_in n (pre ++ n ++ post) = true.
Proof.
  induction pre as [| c pre IH].
  - simpl. rewrite occurs_in_unfold, prefix_of_app. reflexivity.
  - rewrite occurs_in_unfold. simpl. rewrite IH. apply orb_true_r.
Qed.

(** C2, as stated, fails: for an image with two lines of text the extraction
    succeeds and standard output receives the line
    [抽出されたテキスト: { text: 'LINE 1\nLINE 2', confidence: 1 }], in which
    the line break of the text is written as a backslash and an n: the text
    of the result occurs nowhere in what is printed. *)
Lemma success_output_lacks_the_text :
  OCR_new Fake.world_two_lines = (Normal tt, Fake.world_two_lines)
  /\ OCR_extractText tt "path/to/image.png" Fake.world_two_lines
     = (Fulfilled Fake.two_lines, Fake.world_two_lines)
  /\ stdout_text (events (snd (run [] Fake.world_two_lines)))
     = Some ("抽出されたテキスト: { text: 'LINE 1\nLINE 2', confidence: 1 }"
             ++ line_feed)
  /\ ~ (exists pre post,
           "抽出されたテキスト: { text: 'LINE 1\nLINE 2', confidence: 1 }"
           ++ line_feed
           = pre ++ text Fake.two_lines ++ post).
Proof.
  split; [reflexivity | split; [reflexivity | split; [reflexivity |]]].
  intros [pre [post Heq]].
  pose proof (occurs_in_complete pre (text Fake.two_lines) post) as Hocc.
  rewrite <- Heq in Hocc. vm_compute in Hocc. discriminate Hocc.
Qed.

(** The hard-coded path is readable: the label and the record are logged. *)
Lemma success_prints_label_and_result_witness :
  OCR_new Fake.world_ok = (Normal tt, Fake.world_ok)
  /\ OCR_extractText tt "path/to/image.png" Fake.world_ok
     = (Fulfilled Fake.hello, Fake.world_ok)
  /\ run [] Fake.world_ok
     = (CleanExit,
        mkProc [] Fake.world_ok
          [EvNew; EvExtract "path/to/image.png";
           EvStdout [AStr "抽出されたテキスト:"; AResult Fake.hello]])
  /\ stdout_text (events (snd (run [] Fake.world_ok)))
     = Some ("抽出されたテキスト: { text: 'HELLO', confidence: 1 }"
             ++ line_feed).
Proof.
  split; [reflexivity | split; [reflexivity |]].
  apply (success_prints_label_and_result [] Fake.world_ok tt Fake.world_ok
           Fake.hello Fake.world_ok); reflexivity.
Defined.

(** C3, as stated, fails: when no file is readable [main()] rejects, yet the
    process does not end through an unhandled rejection; it ends cleanly. *)
Lemma failure_does_not_end_unhandled :
  main (start [] Fake.world_empty)
  = (Throw "ENOENT: path/to/image.png",
     mkProc [] Fake.world_empty [EvNew; EvExtract "path/to/image.png"])
  /\ fst (run [] Fake.world_empty) = CleanExit
  /\ ~ (exists e, fst (run [] Fake.world_empty) = UnhandledRejection e).
Proof.
  split; [reflexivity | split; [reflexivity |]].
  intros [e H]. discriminate H.
Qed.

(** The rejection of [main()] in the world without files is handled. *)
Lemma main_rejection_is_handled_witness :
  main (start [] Fake.world_empty)
  = (Throw "ENOENT: path/to/image.png",
     mkProc [] Fake.world_empty [EvNew; EvExtract "path/to/image.png"])
  /\ stderr_of (events (snd (run [] Fake.world_empty)))
     = [[AStr "エラーが発生しました:"; AErr "ENOENT: path/to/image.png"]]
  /\ stdout_of (events (snd (run [] Fake.world_empty))) = []
  /\ fst (run [] Fake.world_empty) = CleanExit
  /\ exit_code (fst (run [] Fake.world_empty)) = 0%Z.
Proof.
  split; [reflexivity |].
  apply (main_rejection_is_handled [] Fake.world_empty
           "ENOENT: path/to/image.png"
           (mkProc [] Fake.world_empty [EvNew; EvExtract "path/to/image.png"])).
  reflexivity.
Defined.

(** C7, as stated, fails: when [new OCR()] throws, the run goes from
    [Running] to [Failed] without calling [extractText] at all, so the call
    is not made exactly once in every run. *)
Lemma broken_constructor_run_never_extracts :
  events (snd (run [] Fake.world_broken))
  = [EvNew; EvStderr [AStr "エラーが発生しました:";
                      AErr "engine not installed"]]
  /\ length (extract_calls (events (snd (run [] Fake.world_broken)))) <> 1.
Proof.
  split; [reflexivity |]. simpl. discriminate.
Qed.

(** With a working constructor and a readable image the single extraction
    call is made and the run goes from [Running] to [Succeeded]; with a
    throwing constructor no call is made and the run goes to [Failed]. *)
Lemma entry_flow_witness :
  (OCR_new Fake.world_ok = (Normal tt, Fake.world_ok)
   /\ OCR_extractText tt "path/to/image.png" Fake.world_ok
      = (Fulfilled Fake.hello, Fake.world_ok)
   /\ extract_calls (events (snd (run [] Fake.world_ok)))
      = ["path/to/image.png"]
   /\ phase_path (events (snd (run [] Fake.world_ok)))
      = [Running; Succeeded])
  /\ (OCR_new Fake.world_broken
      = (Throw "engine not installed", Fake.world_broken)
      /\ extract_calls (events (snd (run [] Fake.world_broken))) = []
      /\ phase_path (events (snd (run [] Fake.world_broken)))
         = [Running; Failed]).
Proof.
  split.
  - destruct (entry_flow [] Fake.world_ok) as [_ [_ [Hret _]]].
    destruct (Hret tt Fake.world_ok eq_refl) as [Hcalls [Hful _]].
    split; [reflexivity | split; [reflexivity | split; [exact Hcalls |]]].
    exact (Hful Fake.hello Fake.world_ok eq_refl).
  - destruct (entry_flow [] Fake.world_broken) as [_ [Hthrow _]].
    destruct (Hthrow "engine not installed" Fake.world_broken eq_refl)
      as [Hcalls Hpath].
    split; [reflexivity | split; assumption].
Defined.

(** With the client whose engine never answers, the single call is made and
    the run stays in [Running]: nothing is printed. *)
Example stalled_run :
  run [] Stalled.Waiting
  = (Unsettled,
     mkProc [] Stalled.Waiting [EvNew; EvExtract "path/to/image.png"])
  /\ phase_path (events (snd (run [] Stalled.Waiting))) = [Running].
Proof. split; reflexivity. Qed.

(** A throwing constructor is reported by the handler. *)
Lemma constructor_error_is_caught_witness :
  OCR_new Fake.world_broken = (Throw "engine not installed", Fake.world_broken)
  /\ run [] Fake.world_broken
     = (CleanExit,
        mkProc [] Fake.world_broken
          [EvNew; EvStderr [AStr "エラーが発生しました:";
                            AErr "engine not installed"]]).
Proof.
  split; [reflexivity |].
  apply (constructor_error_is_caught [] Fake.world_broken
           "engine not installed" Fake.world_broken).
  reflexivity.
Defined.

(** ** Further properties of the entry point *)

Section EntryPointOutput.

Context {E W O : Type} {ocrClass : OCRClass E W O}.


(** X2. Standard output only ever shows a result the client produced: a
    [console.log] line of a run is the success label followed by a
    [TextResult] with which [extractText], called on the hard-coded path of
    the client that [new OCR()] returned, fulfilled. *)
Theorem stdout_only_shows_engine_result (args : list string) (w : W)
    (line : list (arg E)) :
  In line (stdout_of (events (snd (run args w)))) ->
  exists o w1 r w2,
    OCR_new w = (Normal o, w1)
    /\ OCR_extractText o "path/to/image.png" w1 = (Fulfilled r, w2)
    /\ line = [AStr "抽出されたテキスト:"; AResult r].
Proof.
  destruct (run_cases args w) as [e w1 Hnew | o w1 e w2 Hnew Hext
                                 | o w1 r w2 Hnew Hext
                                 | o w1 w2 Hnew Hext | w1 Hnew]; simpl.
  - intros [].
  - intros [].
  - intros [Hline | []]. exists o, w1, r, w2. auto.
  - intros [].
  - intros [].
Qed.

(** X3. The error stream only ever shows an error the client raised, as it
    was raised: a [console.error] line of a run is the failure label followed
    by the value that [new OCR()] threw or with which [extractText]
    rejected. *)
Theorem stderr_only_shows_raised_error (args : list string) (w : W)
    (line : list (arg E)) :
  In line (stderr_of (events (snd (run args w)))) ->
  exists e,
    line = [AStr "エラーが発生しました:"; AErr e]
    /\ ((exists w1, OCR_new w = (Throw e, w1))
        \/ (exists o w1 w2,
               OCR_new w = (Normal o, w1)
               /\ OCR_extractText o "path/to/image.png" w1
                  = (Rejected e, w2))).
Proof.
  destruct (run_cases args w) as [e w1 Hnew | o w1 e w2 Hnew Hext
                                 | o w1 r w2 Hnew Hext
                                 | o w1 w2 Hnew Hext | w1 Hnew]; simpl.
  - intros [Hline | []]. exists e. split; [auto | left; eauto].
  - intros [Hline | []]. exists e. split; [auto | right; eauto].
  - intros [].
  - intros [].
  - intros [].
Qed.

(** X4. A run never prints more than one message in all, hence never on both
    streams. It prints none exactly when [new OCR()] does not return or the
    promise of [extractText] stays pending, and exactly one otherwise. *)
Theorem at_most_one_message (args : list string) (w : W) :
  let t := events (snd (run args w)) in
  length (stdout_of t) + length (stderr_of t) <= 1
  /\ (length (stdout_of t) + length (stderr_of t) = 0
      <-> (exists w1, OCR_new w = (Unfinished, w1))
          \/ (exists o w1 w2,
                 OCR_new w = (Normal o, w1)
                 /\ OCR_extractText o "path/to/image.png" w1
                    = (Pending, w2))).
Proof.
  destruct (run_cases args w) as [e w1 Hnew | o w1 e w2 Hnew Hext
                                 | o w1 r w2 Hnew Hext
                                 | o w1 w2 Hnew Hext | w1 Hnew];
    simpl; (split; [lia |]); split; intros H.
  - discriminate H.
  - destruct H as [[w1' H] | [o' [w1' [w2' [H _]]]]];
      rewrite Hnew in H; discriminate H.
  - discriminate H.
  - destruct H as [[w1' H] | [o' [w1' [w2' [H H']]]]];
      rewrite Hnew in H; [discriminate H |].
    inversion H; subst. rewrite Hext in H'. discriminate H'.
  - discriminate H.
  - destruct H as [[w1' H] | [o' [w1' [w2' [H H']]]]];
      rewrite Hnew in H; [discriminate H |].
    inversion H; subst. rewrite Hext in H'. discriminate H'.
  - right. exists o, w1, w2. auto.
  - reflexivity.
  - left. exists w1. exact Hnew.
  - reflexivity.
Qed.

(** X5. The client is built once per run and before anything else happens:
    [new OCR()] is the first event of every run and does not occur again, so
    no extraction and no output precedes it. *)
Theorem client_built_once_and_first (args : list string) (w : W) :
  exists rest,
    events (snd (run args w)) = EvNew :: rest
    /\ ~ In EvNew rest.
Proof.
  destruct (run_cases args w) as [e w1 Hnew | o w1 e w2 Hnew Hext
                                 | o w1 r w2 Hnew Hext
                                 | o w1 w2 Hnew Hext | w1 Hnew];
    simpl; eexists; (split; [reflexivity |]); simpl.
  - intros [Hin | []]; discriminate Hin.
  - intros [Hin | [Hin | []]]; discriminate Hin.
  - intros [Hin | [Hin | []]]; discriminate Hin.
  - intros [Hin | []]; discriminate Hin.
  - intros [].
Qed.

End EntryPointOutput.

(** The record printed in the world with a readable image is the one the
    engine returned. *)
Lemma stdout_only_shows_engine_result_witness :
  In [AStr "抽出されたテキスト:"; AResult Fake.hello]
     (stdout_of (events (snd (run [] Fake.world_ok))))
  /\ exists o w1 r w2,
       OCR_new Fake.world_ok = (Normal o, w1)
       /\ OCR_extractText o "path/to/image.png" w1 = (Fulfilled r, w2)
       /\ [AStr "抽出されたテキスト:"; AResult Fake.hello]
          = ([AStr "抽出されたテキスト:"; AResult r] : list (arg string)).
Proof.
  split; [left; reflexivity |].
  apply (stdout_only_shows_engine_result [] Fake.world_ok
           [AStr "抽出されたテキスト:"; AResult Fake.hello]).
  left; reflexivity.
Defined.

(** The error printed when the constructor throws is the one it threw. *)
Lemma stderr_only_shows_raised_error_witness :
  In [AStr "エラーが発生しました:"; AErr "engine not installed"]
     (stderr_of (events (snd (run [] Fake.world_broken))))
  /\ exists e,
       [AStr "エラーが発生しました:"; AErr "engine not installed"]
       = [AStr "エラーが発生しました:"; AErr e]
       /\ ((exists w1, OCR_new Fake.world_broken = (Throw e, w1))
           \/ (exists o w1 w2,
                  OCR_new Fake.world_broken = (Normal o, w1)
                  /\ OCR_extractText o "path/to/image.png" w1
                     = (Rejected e, w2))).
Proof.
  split; [left; reflexivity |].
  apply (stderr_only_shows_raised_error [] Fake.world_broken
           [AStr "エラーが発生しました:"; AErr "engine not installed"]).
  left; reflexivity.
Defined.

Section MainAlone.

Context {E W O : Type} {ocrClass : OCRClass E W O}.

(** X6. [main] itself reports nothing when it fails: if [main()] rejects, it
    has printed nothing on either stream by then, and the rejection reason is
    the value the client threw or rejected with. All error reporting is done
    by the handler attached at top level. *)
Theorem main_is_silent_on_failure (args : list string) (w : W) (e : E)
    (p : Proc E W) :
  main (start args w) = (Throw e, p) ->
  stdout_of (events p) = []
  /\ stderr_of (events p) = []
  /\ ((exists w1, OCR_new w = (Throw e, w1))
      \/ (exists o w1 w2,
             OCR_new w = (Normal o, w1)
             /\ OCR_extractText o "path/to/image.png" w1 = (Rejected e, w2))).
Proof.
  intros Hmain.
  destruct (OCR_new w) as [[o | e' |] w1] eqn:Hnew.
  - destruct (OCR_extractText o "path/to/image.png" w1) as [[r | e' |] w2]
      eqn:Hext.
    + rewrite (main_fulfilled args w o w1 r w2 Hnew Hext) in Hmain.
      discriminate Hmain.
    + rewrite (main_rejected args w o w1 e' w2 Hnew Hext) in Hmain.
      inversion Hmain; subst. repeat split; try reflexivity.
      right. exists o, w1, w2. auto.
    + rewrite (main_pending args w o w1 w2 Hnew Hext) in Hmain.
      discriminate Hmain.
  - rewrite (main_ctor_throw args w e' w1 Hnew) in Hmain.
    inversion Hmain; subst. repeat split; try reflexivity.
    left. exists w1. reflexivity.
  - rewrite (main_ctor_unfinished args w w1 Hnew) in Hmain.
    discriminate Hmain.
Qed.

End MainAlone.

(** [main()] alone, in the world without files, rejects without a word. *)
Lemma main_is_silent_on_failure_witness :
  main (start [] Fake.world_empty)
  = (Throw "ENOENT: path/to/image.png",
     mkProc [] Fake.world_empty [EvNew; EvExtract "path/to/image.png"])
  /\ stdout_of
       (events (mkProc (E := string) [] Fake.world_empty
                  [EvNew; EvExtract "path/to/image.png"])) = []
  /\ stderr_of
       (events (mkProc (E := string) [] Fake.world_empty
                  [EvNew; EvExtract "path/to/image.png"])) = [].
Proof.
  split; [reflexivity |].
  assert (Hmain : main (start [] Fake.world_empty)
                  = (Throw "ENOENT: path/to/image.png",
                     mkProc [] Fake.world_empty
                       [EvNew; EvExtract "path/to/image.png"]))
    by reflexivity.
  destruct (main_is_silent_on_failure [] Fake.world_empty
              "ENOENT: path/to/image.png" _ Hmain) as [Hout [Herr _]].
  split; assumption.
Defined.
